(** * Prusa MMU firmware: the register access engine and the Home command

    A shallow embedding of [src/registers.cpp] (the register table,
    [ReadRegister], [WriteRegister]) and of [src/logic/home.cpp]
    ([Home::Reset], [Home::StepInner]), with the properties of the
    specification stated and proved over it.

    Conventions.
    - [uint8_t] and [uint16_t] values are numbers in [N]; every conversion
      the C++ performs is written out as a [mod].
    - A pointer is a byte address in [N]; RAM is a finite map from byte
      addresses to bytes.  Multi-byte objects are little-endian, as on the
      AVR target.
    - A reference out-parameter ([uint16_t &value]) is an argument holding
      the caller's value on entry together with a result component holding
      it on return.
    - The firmware modules the two files call into (globals, application,
      finda, fsensor, idler, selector, pulley, config, the command base
      class) are not part of the sources at hand.  They are kept opaque: a
      class [Modules W] lists the operations the two files use, over an
      arbitrary type [W] of module states. *)

From stdpp Require Import base numbers list gmap.

Local Open Scope N_scope.

(* ===================================================================== *)
(** ** Machine integers and RAM *)

Definition u8 (v : N) : N := v mod 256.
Definition u16 (v : N) : N := v mod 65536.

(** [*static_cast<uint8_t *>(p)] and [*static_cast<uint16_t *>(p)], as
    loads and stores.  A cell that was never stored to reads as 0. *)
Definition load8 (ram : gmap N N) (p : N) : N := u8 (default 0 (ram !! p)).
Definition load16 (ram : gmap N N) (p : N) : N :=
  load8 ram p + 256 * load8 ram (p + 1).
Definition store8 (ram : gmap N N) (p v : N) : gmap N N := <[p := u8 v]> ram.
Definition store16 (ram : gmap N N) (p v : N) : gmap N N :=
  <[p + 1 := u8 (v / 256)]> (<[p := u8 v]> ram).

(* ===================================================================== *)
(** ** Enumerations used by the command *)

(** Modelled from the spec: the declaration of [ProgressCode] is not among
    the sources.  [home.cpp] names the enumerators [Homing], [OK] and
    [ERRInternal]; the spec says the enumeration has further phases, one
    set per command.  [Other c] stands for any enumerator besides the
    three named ones. *)
Module ProgressCode.
Inductive t : Set := OK | Homing | ERRInternal | Other (code : N).
End ProgressCode.

(** Modelled from the spec: the declaration of [ErrorCode] is not among
    the sources.  [home.cpp] names [RUNNING], [OK] and [INTERNAL]; the spec
    adds subsystem-specific errors, which [Other c] stands for. *)
Module ErrorCode.
Inductive t : Set := RUNNING | OK | INTERNAL | Other (code : N).
End ErrorCode.

(** Modelled from the spec: the state enumeration of the idler and of the
    selector is not among the sources.  [home.cpp] compares both against an
    enumerator [Ready]; [Busy c] stands for every other state. *)
Module Movable.
Inductive State : Set := Ready | Busy (code : N).

Definition eqb (a b : State) : bool :=
  match a, b with
  | Ready, Ready => true
  | Busy c, Busy d => N.eqb c d
  | _, _ => false
  end.
End Movable.

(* ===================================================================== *)
(** ** The modules the two files call into *)

(** Modelled from the spec: none of the headers included by
    [registers.cpp] and [home.cpp] is among the sources.  The spec treats
    these modules as opaque collaborators, each with small state queries
    and, for actuators, operations that start a motion.  A query is a
    function of the module state, an operation a transformer of it, a
    configuration constant a number.  The names follow the calls in the two
    files. *)
Class Modules (W : Type) : Type := {
  (* version.hpp: where the four version bytes are stored *)
  project_major_addr : N;
  project_minor_addr : N;
  project_revision_addr : N;
  project_build_number_addr : N;
  (* registers.cpp, [dummyZero]: where the 16-bit zero is stored *)
  dummyZero_addr : N;
  (* modules/globals.h *)
  globals_DriveErrors : W → N;
  globals_FilamentLoaded : W → N;
  globals_ActiveSlot : W → N;
  globals_SetFilamentLoaded : N → N → W → W;
  globals_MotorsStealth : W → bool;
  globals_FSensorToNozzle_mm : W → N;
  globals_SetFSensorToNozzle_mm : N → W → W;
  globals_FSensorUnloadCheck_mm : W → N;
  globals_SetFSensorUnloadCheck_mm : N → W → W;
  globals_PulleyUnloadFeedrate_mm_s : W → N;
  globals_SetPulleyUnloadFeedrate_mm_s : N → W → W;
  globals_PulleyLoadFeedrate_mm_s : W → N;
  globals_SetPulleyLoadFeedrate_mm_s : N → W → W;
  globals_SelectorFeedrate_mm_s : W → N;
  globals_SetSelectorFeedrate_mm_s : N → W → W;
  globals_IdlerFeedrate_deg_s : W → N;
  globals_SetIdlerFeedrate_deg_s : N → W → W;
  globals_PulleySlowFeedrate_mm_s : W → N;
  globals_SetPulleySlowFeedrate_mm_s : N → W → W;
  (* application.h *)
  application_CurrentProgressCode : W → N;
  application_CurrentErrorCode : W → N;
  (* modules/finda.h, modules/fsensor.h *)
  finda_Pressed : W → bool;
  fsensor_Pressed : W → bool;
  fsensor_ProcessMessage : bool → W → W;
  (* config *)
  config_pulleyLimits_accel : N;
  config_selectorLimits_accel : N;
  config_idlerLimits_accel : N;
  config_selectorHomingFeedrate : N;
  config_idlerHomingFeedrate : N;
  config_pulley_sg_thrs : N;
  config_selector_sg_thrs : N;
  config_idler_sg_thrs : N;
  config_toolCount : N;
  (* modules/pulley.h *)
  pulley_CurrentPosition_mm : W → N;
  (* modules/selector.h *)
  selector_Slot : W → N;
  selector_MoveToSlot : N → W → W;
  selector_State : W → Movable.State;
  (* modules/idler.h *)
  idler_Slot : W → N;
  idler_Disengage : W → W;
  idler_Engage : N → W → W;
  idler_State : W → Movable.State;
  (* logic/command_base.h *)
  InvalidateHomingAndFilamentState : W → W
}.

(* ===================================================================== *)
(** ** logic/home.cpp *)

Module logic.

(** The two data members a command object carries. *)
Record Home : Set := mkHome {
  state : ProgressCode.t;
  error : ErrorCode.t
}.

(** Three values of the command object: still homing, finished, and
    stopped on an internal error. *)
Definition homing : Home := mkHome ProgressCode.Homing ErrorCode.RUNNING.
Definition finished : Home := mkHome ProgressCode.OK ErrorCode.OK.
Definition failed : Home :=
  mkHome ProgressCode.ERRInternal ErrorCode.INTERNAL.

Section Home.
Context {W : Type} {M : Modules W}.

(** [void Home::Reset(uint8_t)]: the two assignments, then the call that
    invalidates homing and filament state in the modules. *)
Definition Reset (param : N) (h : Home) (w : W) : Home * W :=
  let h := mkHome (state h) ErrorCode.RUNNING in
  let h := mkHome ProgressCode.Homing (error h) in
  (h, InvalidateHomingAndFilamentState w).

(** [bool Home::StepInner()].  The modules are only queried, so the result
    is the returned flag and the command object.  In the [Homing] case the
    [break] leads to the final [return false], whether or not the two
    assignments were made. *)
Definition StepInner (h : Home) (w : W) : bool * Home :=
  match state h with
  | ProgressCode.Homing =>
      let h :=
        if Movable.eqb (idler_State w) Movable.Ready
           && Movable.eqb (selector_State w) Movable.Ready
        then mkHome ProgressCode.OK ErrorCode.OK
        else h in
      (false, h)
  | ProgressCode.OK => (true, h)
  | _ => (true, mkHome ProgressCode.ERRInternal ErrorCode.INTERNAL)
  end.

(** What the main loop may do with the command object: restart it, step
    it, or let the rest of the firmware run, which changes the modules in
    a way these two files do not constrain. *)
Inductive Call : Type :=
| CallReset (param : N)
| CallStep
| Elapse (f : W → W).

Definition call (c : Call) (hw : Home * W) : Home * W :=
  match c with
  | CallReset p => Reset p (fst hw) (snd hw)
  | CallStep => (snd (StepInner (fst hw) (snd hw)), snd hw)
  | Elapse f => (fst hw, f (snd hw))
  end.

Definition run (cs : list Call) (hw : Home * W) : Home * W :=
  foldl (λ acc c, call c acc) hw cs.

(** Successive step calls, the i-th one made while the modules are in the
    i-th state of [ws]: the flag each call returns and the command object
    it leaves. *)
Fixpoint StepTrace (ws : list W) (h : Home) : list (bool * Home) :=
  match ws with
  | [] => []
  | w :: ws => let r := StepInner h w in r :: StepTrace ws (snd r)
  end.

Definition BothReady (w : W) : Prop :=
  idler_State w = Movable.Ready ∧ selector_State w = Movable.Ready.

(** The three combinations of phase and error code. *)
Definition LockStep (h : Home) : Prop :=
  (state h = ProgressCode.Homing ∧ error h = ErrorCode.RUNNING)
  ∨ (state h = ProgressCode.OK ∧ error h = ErrorCode.OK)
  ∨ (state h = ProgressCode.ERRInternal ∧ error h = ErrorCode.INTERNAL).

End Home.
End logic.

(* ===================================================================== *)
(** ** registers.cpp *)

(** Everything the register layer can reach: RAM, for the registers backed
    by an address, and the modules, for those backed by functions. *)
Record World (W : Type) : Type := mkWorld {
  ram : gmap N N;
  mods : W
}.
Arguments mkWorld {W} _ _.
Arguments ram {W} _.
Arguments mods {W} _.

Definition on_mods {W : Type} (f : W → W) (w : World W) : World W :=
  mkWorld (ram w) (f (mods w)).

(** [struct RegisterFlags]; [size] is a two-bit field, so both
    constructors keep the low two bits of their argument. *)
Record RegisterFlags : Set := mkRegisterFlags {
  writable : bool;
  rwfuncs : bool;
  size : N
}.

Definition RegisterFlags_2 (writable : bool) (size : N) : RegisterFlags :=
  mkRegisterFlags writable false (size mod 4).
Definition RegisterFlags_3 (writable rwfuncs : bool) (size : N)
  : RegisterFlags :=
  mkRegisterFlags writable rwfuncs (size mod 4).

Section Registers.
Context {W : Type}.

(** [TReadFunc] and [TWriteFunc], the two function-pointer types: a read
    function queries the world and returns a [uint16_t], a write function
    takes a [uint16_t] and changes the world. *)
Definition TReadFunc : Type := World W → N.
Definition TWriteFunc : Type := N → World W → World W.

(** The two unions of [RegisterRec], with the member that was initialised. *)
Inductive U1 : Type := U1_addr (a : N) | U1_readFunc (r : TReadFunc).
Inductive U2 : Type := U2_addr (a : N) | U2_writeFunc (f : TWriteFunc).

Record RegisterRec : Type := mkRegisterRec {
  flags : RegisterFlags;
  A1 : U1;
  A2 : U2
}.

(** Member access.  The source reads [A1.addr] only under [!rwfuncs] and
    [A1.readFunc], [A2.writeFunc] only under [rwfuncs], and its
    constructors initialise the matching member, so the second branch of
    each projection is never taken for a record built by a constructor; it
    is there to make the projection total. *)
Definition addr (u : U1) : N :=
  match u with U1_addr a => a | U1_readFunc _ => 0 end.
Definition readFunc (u : U1) : TReadFunc :=
  match u with U1_readFunc r => r | U1_addr _ => λ _, 0 end.
Definition writeFunc (u : U2) : TWriteFunc :=
  match u with U2_writeFunc f => f | U2_addr _ => λ _ w, w end.

(** The four constructors of [RegisterRec]; [nullptr] is address 0.  The
    first is the template constructor, [sizeofT] being [sizeof(T)]. *)
Definition RegisterRec_ptr (writable : bool) (sizeofT address : N)
  : RegisterRec :=
  mkRegisterRec (RegisterFlags_2 writable sizeofT) (U1_addr address) (U2_addr 0).
Definition RegisterRec_r (readFunc : TReadFunc) (bytes : N) : RegisterRec :=
  mkRegisterRec (RegisterFlags_3 false true bytes) (U1_readFunc readFunc)
    (U2_addr 0).
Definition RegisterRec_rw (readFunc : TReadFunc) (writeFunc : TWriteFunc)
  (bytes : N) : RegisterRec :=
  mkRegisterRec (RegisterFlags_3 true true bytes) (U1_readFunc readFunc)
    (U2_writeFunc writeFunc).
Definition RegisterRec_0 `{!Modules W} : RegisterRec :=
  mkRegisterRec (RegisterFlags_3 false false 1) (U1_addr dummyZero_addr)
    (U2_addr 0).

(** [registersSize], a [uint8_t]. *)
Definition registersSizeOf (registers : list RegisterRec) : N :=
  u8 (N.of_nat (length registers)).

(** [bool ReadRegister(uint8_t address, uint16_t &value)] over a table.
    The result is the returned flag and [value] on return.  The [None]
    branch cannot be reached: [address] is below the table length there. *)
Definition ReadRegisterIn (registers : list RegisterRec)
  (address value : N) (w : World W) : bool * N :=
  if registersSizeOf registers <=? address then (false, value)
  else
    match registers !! N.to_nat address with
    | None => (false, value)
    | Some r =>
        let value := 0 in
        if negb (rwfuncs (flags r)) then
          match size (flags r) with
          | 0 | 1 => (true, load8 (ram w) (addr (A1 r)))
          | 2 => (true, load16 (ram w) (addr (A1 r)))
          | _ => (false, value)
          end
        else
          match size (flags r) with
          | 0 | 1 | 2 => (true, readFunc (A1 r) w)
          | _ => (false, value)
          end
    end.

(** [bool WriteRegister(uint8_t address, uint16_t value)] over a table.
    The result is the returned flag and the world on return. *)
Definition WriteRegisterIn (registers : list RegisterRec)
  (address value : N) (w : World W) : bool * World W :=
  if registersSizeOf registers <=? address then (false, w)
  else
    match registers !! N.to_nat address with
    | None => (false, w)
    | Some r =>
        if negb (writable (flags r)) then (false, w)
        else if negb (rwfuncs (flags r)) then
          match size (flags r) with
          | 0 | 1 =>
              (true, mkWorld (store8 (ram w) (addr (A1 r)) value) (mods w))
          | 2 =>
              (true, mkWorld (store16 (ram w) (addr (A1 r)) value) (mods w))
          | _ => (false, w)
          end
        else
          match size (flags r) with
          | 0 | 1 | 2 => (true, writeFunc (A2 r) value w)
          | _ => (false, w)
          end
    end.

(** The width in bytes a descriptor's [size] field stands for, where the
    engine recognises it: one bit and one byte both take a byte. *)
Definition width (r : RegisterRec) : N :=
  match size (flags r) with 2 => 2 | _ => 1 end.

End Registers.
Arguments RegisterRec : clear implicits.
Arguments U1 : clear implicits.
Arguments U2 : clear implicits.
Arguments TReadFunc : clear implicits.
Arguments TWriteFunc : clear implicits.

Section Table.
Context {W : Type} {M : Modules W}.

(** Modelled from the spec: [version.hpp] is not among the sources, so
    [sizeof(T)] of the four version objects is not known from the code.
    The spec's address map gives registers 0x00 to 0x03 a width of one
    byte. *)
Definition sizeof_project_version : N := 1.

(** [static const RegisterRec registers[]].  Each lambda converts what it
    returns to [uint16_t]; a [bool] converts to 0 or 1.  A write lambda
    passes its [uint16_t] argument on; what the callee's parameter type
    does to it belongs to the callee. *)
Definition registers : list (RegisterRec W) := [
  (* 0x00 *)
  RegisterRec_ptr false sizeof_project_version project_major_addr;
  (* 0x01 *)
  RegisterRec_ptr false sizeof_project_version project_minor_addr;
  (* 0x02 *)
  RegisterRec_ptr false sizeof_project_version project_revision_addr;
  (* 0x03 *)
  RegisterRec_ptr false sizeof_project_version project_build_number_addr;
  (* 0x04 *)
  RegisterRec_r (λ w, u16 (globals_DriveErrors (mods w))) 2;
  (* 0x05 *)
  RegisterRec_r (λ w, u16 (application_CurrentProgressCode (mods w))) 1;
  (* 0x06 *)
  RegisterRec_r (λ w, u16 (application_CurrentErrorCode (mods w))) 2;
  (* 0x07 filamentState *)
  RegisterRec_rw
    (λ w, u16 (globals_FilamentLoaded (mods w)))
    (λ v, on_mods (λ m, globals_SetFilamentLoaded (globals_ActiveSlot m) v m))
    1;
  (* 0x08 FINDA *)
  RegisterRec_r (λ w, u16 (N.b2n (finda_Pressed (mods w)))) 1;
  (* 0x09 fsensor *)
  RegisterRec_rw
    (λ w, u16 (N.b2n (fsensor_Pressed (mods w))))
    (λ v, on_mods (fsensor_ProcessMessage (negb (v =? 0))))
    1;
  (* 0x0a motor mode *)
  RegisterRec_r (λ w, u16 (N.b2n (globals_MotorsStealth (mods w)))) 1;
  (* 0x0b extra load distance after fsensor triggered *)
  RegisterRec_rw
    (λ w, u16 (globals_FSensorToNozzle_mm (mods w)))
    (λ d, on_mods (globals_SetFSensorToNozzle_mm d))
    1;
  (* 0x0c fsensor unload check distance *)
  RegisterRec_rw
    (λ w, u16 (globals_FSensorUnloadCheck_mm (mods w)))
    (λ d, on_mods (globals_SetFSensorUnloadCheck_mm d))
    1;
  (* 0x0d pulley unload feedrate *)
  RegisterRec_rw
    (λ w, u16 (globals_PulleyUnloadFeedrate_mm_s (mods w)))
    (λ d, on_mods (globals_SetPulleyUnloadFeedrate_mm_s d))
    2;
  (* 0x0e pulley acceleration *)
  RegisterRec_r (λ _, u16 config_pulleyLimits_accel) 2;
  (* 0x0f selector acceleration *)
  RegisterRec_r (λ _, u16 config_selectorLimits_accel) 2;
  (* 0x10 idler acceleration *)
  RegisterRec_r (λ _, u16 config_idlerLimits_accel) 2;
  (* 0x11 pulley load feedrate *)
  RegisterRec_rw
    (λ w, u16 (globals_PulleyLoadFeedrate_mm_s (mods w)))
    (λ d, on_mods (globals_SetPulleyLoadFeedrate_mm_s d))
    2;
  (* 0x12 selector nominal feedrate *)
  RegisterRec_rw
    (λ w, u16 (globals_SelectorFeedrate_mm_s (mods w)))
    (λ d, on_mods (globals_SetSelectorFeedrate_mm_s d))
    2;
  (* 0x13 idler nominal feedrate *)
  RegisterRec_rw
    (λ w, u16 (globals_IdlerFeedrate_deg_s (mods w)))
    (λ d, on_mods (globals_SetIdlerFeedrate_deg_s d))
    2;
  (* 0x14 pulley slow load to fsensor feedrate *)
  RegisterRec_rw
    (λ w, u16 (globals_PulleySlowFeedrate_mm_s (mods w)))
    (λ d, on_mods (globals_SetPulleySlowFeedrate_mm_s d))
    2;
  (* 0x15 selector homing feedrate *)
  RegisterRec_r (λ _, u16 config_selectorHomingFeedrate) 2;
  (* 0x16 idler homing feedrate *)
  RegisterRec_r (λ _, u16 config_idlerHomingFeedrate) 2;
  (* 0x17 pulley sg_thrs *)
  RegisterRec_r (λ _, u16 config_pulley_sg_thrs) 2;
  (* 0x18 selector sg_thrs *)
  RegisterRec_r (λ _, u16 config_selector_sg_thrs) 2;
  (* 0x19 idler sg_thrs *)
  RegisterRec_r (λ _, u16 config_idler_sg_thrs) 2;
  (* 0x1a pulley position *)
  RegisterRec_r (λ w, u16 (pulley_CurrentPosition_mm (mods w))) 2;
  (* 0x1b selector slot *)
  RegisterRec_rw
    (λ w, u16 (selector_Slot (mods w)))
    (λ d, on_mods (selector_MoveToSlot d))
    1;
  (* 0x1c idler slot *)
  RegisterRec_rw
    (λ w, u16 (idler_Slot (mods w)))
    (λ d, on_mods (if config_toolCount <=? d then idler_Disengage
                   else idler_Engage d))
    1
].

Definition registersSize : N := registersSizeOf registers.

Definition ReadRegister (address value : N) (w : World W) : bool * N :=
  ReadRegisterIn registers address value w.

Definition WriteRegister (address value : N) (w : World W) : bool * World W :=
  WriteRegisterIn registers address value w.

(** Modelled from the spec: [modules/idler] is not among the sources, so
    what [Slot] returns once [Disengage] was called is not known from the
    code.  The spec's scenario for register 0x1C has a read after a
    disengaging write show the disengaged state, not a valid slot: the slot
    the idler reports then, as this register returns it, is not below the
    tool count. *)
Definition IdlerReportsDisengaged : Prop :=
  ∀ m : W, config_toolCount <= u16 (idler_Slot (idler_Disengage m)).

End Table.

(* ===================================================================== *)
(** ** A bench double of the modules *)

(** Modelled from the spec: the modules themselves are not among the
    sources.  This is a stand-in for them, used to run the definitions
    above on concrete inputs: every query reads a field, every operation
    sets one, and a motion is over as soon as it is started.  A disengaged
    idler reports the first index that is not a slot, [Bench.toolCount].
    Invalidating homing and filament state clears the homing flag and the
    filament state and leaves the axes' states as they are. *)
Module Bench.

Record t : Set := mk {
  idlerState : Movable.State;
  idlerSlot : N;
  selectorState : Movable.State;
  selectorSlot : N;
  homingValid : bool;
  findaPressed : bool;
  fsensorPressed : bool;
  filamentLoaded : N;
  driveErrors : N;
  progress : N;
  errorCode : N;
  feedrate : N
}.

Definition toolCount : N := 5.

Definition setIdlerSlot (s : N) (b : t) : t :=
  mk (idlerState b) s (selectorState b) (selectorSlot b) (homingValid b)
     (findaPressed b) (fsensorPressed b) (filamentLoaded b) (driveErrors b)
     (progress b) (errorCode b) (feedrate b).
Definition setSelectorSlot (s : N) (b : t) : t :=
  mk (idlerState b) (idlerSlot b) (selectorState b) s (homingValid b)
     (findaPressed b) (fsensorPressed b) (filamentLoaded b) (driveErrors b)
     (progress b) (errorCode b) (feedrate b).
Definition setFsensor (p : bool) (b : t) : t :=
  mk (idlerState b) (idlerSlot b) (selectorState b) (selectorSlot b)
     (homingValid b) (findaPressed b) p (filamentLoaded b) (driveErrors b)
     (progress b) (errorCode b) (feedrate b).
Definition setFilamentLoaded (slot v : N) (b : t) : t :=
  mk (idlerState b) (idlerSlot b) (selectorState b) (selectorSlot b)
     (homingValid b) (findaPressed b) (fsensorPressed b) v (driveErrors b)
     (progress b) (errorCode b) (feedrate b).
Definition setFeedrate (v : N) (b : t) : t :=
  mk (idlerState b) (idlerSlot b) (selectorState b) (selectorSlot b)
     (homingValid b) (findaPressed b) (fsensorPressed b) (filamentLoaded b)
     (driveErrors b) (progress b) (errorCode b) v.
Definition invalidate (b : t) : t :=
  mk (idlerState b) (idlerSlot b) (selectorState b) (selectorSlot b)
     false (findaPressed b) (fsensorPressed b) 0 (driveErrors b)
     (progress b) (errorCode b) (feedrate b).

#[global] Instance modules : Modules t := {|
  project_major_addr := 0x100;
  project_minor_addr := 0x101;
  project_revision_addr := 0x102;
  project_build_number_addr := 0x103;
  dummyZero_addr := 0x104;
  globals_DriveErrors := driveErrors;
  globals_FilamentLoaded := filamentLoaded;
  globals_ActiveSlot := selectorSlot;
  globals_SetFilamentLoaded := setFilamentLoaded;
  globals_MotorsStealth := λ _, false;
  globals_FSensorToNozzle_mm := feedrate;
  globals_SetFSensorToNozzle_mm := setFeedrate;
  globals_FSensorUnloadCheck_mm := feedrate;
  globals_SetFSensorUnloadCheck_mm := setFeedrate;
  globals_PulleyUnloadFeedrate_mm_s := feedrate;
  globals_SetPulleyUnloadFeedrate_mm_s := setFeedrate;
  globals_PulleyLoadFeedrate_mm_s := feedrate;
  globals_SetPulleyLoadFeedrate_mm_s := setFeedrate;
  globals_SelectorFeedrate_mm_s := feedrate;
  globals_SetSelectorFeedrate_mm_s := setFeedrate;
  globals_IdlerFeedrate_deg_s := feedrate;
  globals_SetIdlerFeedrate_deg_s := setFeedrate;
  globals_PulleySlowFeedrate_mm_s := feedrate;
  globals_SetPulleySlowFeedrate_mm_s := setFeedrate;
  application_CurrentProgressCode := progress;
  application_CurrentErrorCode := errorCode;
  finda_Pressed := findaPressed;
  fsensor_Pressed := fsensorPressed;
  fsensor_ProcessMessage := setFsensor;
  config_pulleyLimits_accel := 800;
  config_selectorLimits_accel := 200;
  config_idlerLimits_accel := 500;
  config_selectorHomingFeedrate := 30;
  config_idlerHomingFeedrate := 265;
  config_pulley_sg_thrs := 8;
  config_selector_sg_thrs := 3;
  config_idler_sg_thrs := 6;
  config_toolCount := toolCount;
  pulley_CurrentPosition_mm := λ _, 0;
  selector_Slot := selectorSlot;
  selector_MoveToSlot := setSelectorSlot;
  selector_State := selectorState;
  idler_Slot := idlerSlot;
  idler_Disengage := setIdlerSlot toolCount;
  idler_Engage := setIdlerSlot;
  idler_State := idlerState;
  InvalidateHomingAndFilamentState := invalidate
|}.

(** Both axes at rest, idler engaged at slot 2, version 2.1.9 build 4 in
    RAM. *)
Definition rest : t :=
  mk Movable.Ready 2 Movable.Ready 2 true false false 0 0 0 0 30.
Definition ram0 : gmap N N :=
  <[0x103 := 4]> (<[0x102 := 9]> (<[0x101 := 1]> (<[0x100 := 2]> ∅))).
Definition world0 : World t := mkWorld ram0 rest.

(** The idler still moving. *)
Definition moving : t :=
  mk (Movable.Busy 1) 2 Movable.Ready 2 true false false 0 0 0 0 30.

(** A table with one writable 16-bit and one writable 8-bit register in
    RAM, built with the pointer constructor, and one function-backed
    register whose width argument is 3. *)
Definition table : list (RegisterRec t) := [
  RegisterRec_ptr true 2 0x200;
  RegisterRec_ptr true 1 0x202;
  RegisterRec_r (λ w, u16 (driveErrors (mods w))) 3
].

End Bench.

(* ===================================================================== *)
(** ** Descriptors and sequences of writes *)

Section Use.
Context {W : Type}.

(** Whether the union members the engine will access were initialised:
    [A1.addr] when [rwfuncs] is clear, [A1.readFunc] when it is set, and
    [A2.writeFunc] too when the register is also writable. *)
Definition membersInitialised (r : RegisterRec W) : bool :=
  match A1 r with
  | U1_addr _ => negb (rwfuncs (flags r))
  | U1_readFunc _ =>
      rwfuncs (flags r)
      && (negb (writable (flags r))
          || match A2 r with U2_writeFunc _ => true | U2_addr _ => false end)
  end.


(** A sequence of [WriteRegister] calls, each an address and a value, made
    one after the other whatever each returns. *)
Definition WriteRegisters `{!Modules W} (ops : list (N * N)) (w : World W)
  : World W :=
  foldl (λ acc op, snd (WriteRegister (fst op) (snd op) acc)) w ops.

End Use.

(** More bench tables: a 4-byte object registered through the pointer
    constructor, a default-constructed entry, and a function-backed
    register of width 1 over a 16-bit setting. *)
Module BenchTables.

Definition wide : list (RegisterRec Bench.t) := [
  RegisterRec_ptr true 4 0x210
].

Definition placeholder : list (RegisterRec Bench.t) := [
  RegisterRec_0;
  RegisterRec_rw (λ w, u16 (Bench.feedrate (mods w)))
    (λ v, on_mods (Bench.setFeedrate v)) 1
].

(** RAM holding 0x04030201 at 0x210. *)
Definition ram1 : gmap N N :=
  <[0x213 := 4]> (<[0x212 := 3]> (<[0x211 := 2]> (<[0x210 := 1]> ∅))).
Definition world1 : World Bench.t := mkWorld ram1 Bench.rest.

End BenchTables.

(* ===================================================================== *)
(** * Properties of the Home command *)

Section HomeProperties.
Import logic.
Context {W : Type} {M : Modules W}.

Lemma Reset_fst (p : N) (h : Home) (w : W) : fst (Reset p h w) = homing.
Proof. reflexivity. Qed.

Lemma BothReady_test (w : W) :
  BothReady w →
  Movable.eqb (idler_State w) Movable.Ready
  && Movable.eqb (selector_State w) Movable.Ready = true.
Proof. intros [-> ->]. reflexivity. Qed.

Lemma not_BothReady_test (w : W) :
  ¬ BothReady w →
  Movable.eqb (idler_State w) Movable.Ready
  && Movable.eqb (selector_State w) Movable.Ready = false.
Proof.
  unfold BothReady. intros Hn.
  destruct (idler_State w) as [|c], (selector_State w) as [|d];
    try reflexivity.
  exfalso. apply Hn. split; reflexivity.
Qed.

(** One step of a homing command: it stays put while an axis is busy. *)
Lemma StepInner_homing_wait (w : W) :
  ¬ BothReady w → StepInner homing w = (false, homing).
Proof.
  intros Hn. unfold StepInner. cbn [state homing].
  rewrite (not_BothReady_test w Hn). reflexivity.
Qed.

(** One step of a homing command: it finishes once both axes are ready,
    and the call that notices it still returns [false]. *)
Lemma StepInner_homing_done (w : W) :
  BothReady w → StepInner homing w = (false, finished).
Proof.
  intros Hr. unfold StepInner. cbn [state homing].
  rewrite (BothReady_test w Hr). reflexivity.
Qed.

Lemma StepInner_finished (w : W) : StepInner finished w = (true, finished).
Proof. reflexivity. Qed.

Lemma StepTrace_waiting (ws : list W) :
  Forall (λ w, ¬ BothReady w) ws →
  StepTrace ws homing = map (λ _, (false, homing)) ws.
Proof.
  induction 1 as [|w ws Hw _ IH]; [reflexivity|].
  cbn [StepTrace map]. rewrite (StepInner_homing_wait w Hw). cbn [snd].
  rewrite IH. reflexivity.
Qed.

Lemma StepTrace_finished (ws : list W) :
  StepTrace ws finished = map (λ _, (true, finished)) ws.
Proof.
  induction ws as [|w ws IH]; [reflexivity|].
  cbn [StepTrace map]. rewrite StepInner_finished. cbn [snd].
  rewrite IH. reflexivity.
Qed.

Lemma StepTrace_homing (pre post : list W) (w : W) :
  Forall (λ w, ¬ BothReady w) pre → BothReady w →
  StepTrace (pre ++ w :: post) homing
  = map (λ _, (false, homing)) pre
    ++ (false, finished) :: map (λ _, (true, finished)) post.
Proof.
  intros Hpre Hw. induction Hpre as [|v pre Hv _ IH].
  - cbn [app StepTrace map]. rewrite (StepInner_homing_done w Hw).
    cbn [snd]. rewrite StepTrace_finished. reflexivity.
  - cbn [app StepTrace map]. rewrite (StepInner_homing_wait v Hv).
    cbn [snd]. rewrite IH. reflexivity.
Qed.

Lemma LockStep_call (c : Call) (hw : Home * W) :
  LockStep (fst hw) → LockStep (fst (call c hw)).
Proof.
  destruct hw as [h w]. destruct c as [p| |f]; cbn [call fst snd].
  - intros _. left. split; reflexivity.
  - unfold LockStep, StepInner. destruct h as [s e]. cbn [state error].
    intros [[-> ->]|[[-> ->]|[-> ->]]].
    + destruct (_ && _); cbn; auto.
    + cbn. auto.
    + cbn. auto.
  - trivial.
Qed.

Lemma LockStep_run (cs : list Call) (hw : Home * W) :
  LockStep (fst hw) → LockStep (fst (run cs hw)).
Proof.
  revert hw. induction cs as [|c cs IH]; intros hw Hinv.
  - exact Hinv.
  - cbn [run foldl]. apply IH. apply LockStep_call. exact Hinv.
Qed.


(** C7.  [Home::Reset] called any number of times in a row, one or more,
    with any parameters and from any state and error, leaves
    [state = Homing] and [error = RUNNING]. *)
Theorem Home_Reset_repeated (p : N) (ps : list N) (h : Home) (w : W) :
  fst (run (map CallReset (p :: ps)) (h, w)) = homing.
Proof.
  revert p h w. induction ps as [|q ps IH]; intros p h w.
  - reflexivity.
  - change (run (map CallReset (p :: q :: ps)) (h, w))
      with (run (map CallReset (q :: ps)) (Reset p h w)).
    destruct (Reset p h w) as [h' w']. apply IH.
Qed.

(** C8.  If the state is neither [Homing] nor [OK], the next step sets
    [state = ERRInternal] and [error = INTERNAL] and returns [true]. *)
Theorem Home_Step_unhandled_state (h : Home) (w : W) :
  state h ≠ ProgressCode.Homing → state h ≠ ProgressCode.OK →
  StepInner h w = (true, failed).
Proof.
  intros Hh Ho. unfold StepInner.
  destruct (state h); try reflexivity; congruence.
Qed.

(** C5.  After [Reset], as long as the idler or the selector is not ready
    every step returns [false] and leaves [Homing] and [RUNNING]; the
    first step that finds both ready moves to [OK] (with error [OK]), and
    every later step leaves that unchanged, whatever the axes do then. *)
Theorem Home_waits_then_finishes (p : N) (h0 : Home) (w0 : W)
  (pre post : list W) (w : W) :
  Forall (λ v, ¬ BothReady v) pre → BothReady w →
  StepTrace pre (fst (Reset p h0 w0)) = map (λ _, (false, homing)) pre
  ∧ map snd (StepTrace (pre ++ w :: post) (fst (Reset p h0 w0)))
    = map (λ _, homing) pre ++ finished :: map (λ _, finished) post.
Proof.
  intros Hpre Hw. rewrite Reset_fst. split.
  - apply StepTrace_waiting. exact Hpre.
  - rewrite (StepTrace_homing pre post w Hpre Hw).
    rewrite map_app. cbn [map snd]. rewrite !map_map. reflexivity.
Qed.

(** C10.  Starting from [Reset], after any sequence of [Reset] and step
    calls, with the modules changing in any way in between, the pair of
    state and error is (Homing, RUNNING), (OK, OK) or
    (ERRInternal, INTERNAL). *)
Theorem Home_state_error_lockstep (p : N) (cs : list Call) (h : Home)
  (w : W) :
  LockStep (fst (run (CallReset p :: cs) (h, w))).
Proof.
  change (run (CallReset p :: cs) (h, w)) with (run cs (Reset p h w)).
  apply LockStep_run. left. split; reflexivity.
Qed.

(** C2, amended.  If both axes are ready when the first step after
    [Reset] is made, that step sets [state = OK] and [error = OK] and
    returns [false]; the step after it returns [true].  A step returns
    [true] exactly when the state it finds is not [Homing], and then the
    state it leaves is [OK] or [ERRInternal]. *)
Theorem Home_Step_reports_on_next_call (p : N) (h0 h : Home)
  (w0 w1 w2 w : W) :
  BothReady w1 →
  StepInner (fst (Reset p h0 w0)) w1 = (false, finished)
  ∧ StepInner finished w2 = (true, finished)
  ∧ (fst (StepInner h w) = true ↔ state h ≠ ProgressCode.Homing)
  ∧ (fst (StepInner h w) = true →
     state (snd (StepInner h w)) = ProgressCode.OK
     ∨ state (snd (StepInner h w)) = ProgressCode.ERRInternal).
Proof.
  intros Hr. rewrite Reset_fst. split; [|split; [|split]].
  - apply StepInner_homing_done. exact Hr.
  - reflexivity.
  - unfold StepInner. destruct h as [s e]. cbn [state].
    destruct s; cbn [fst]; split; congruence.
  - unfold StepInner. destruct h as [s e]. cbn [state].
    destruct s; cbn [fst snd state]; auto. discriminate.
Qed.

End HomeProperties.

(* ===================================================================== *)
(** * Properties of the register access engine *)

Lemma u8_u8 (v : N) : u8 (u8 v) = u8 v.
Proof. unfold u8. apply N.Div0.mod_mod. Qed.

Lemma load8_store8 (ram : gmap N N) (p v : N) :
  load8 (store8 ram p v) p = v mod 256.
Proof.
  unfold load8, store8. rewrite lookup_insert_eq. cbn [default from_option id].
  apply u8_u8.
Qed.

Lemma load16_store16 (ram : gmap N N) (p v : N) :
  load16 (store16 ram p v) p = v mod 65536.
Proof.
  unfold load16, load8, store16.
  rewrite lookup_insert_ne by lia.
  rewrite !lookup_insert_eq. cbn [default from_option id].
  rewrite !u8_u8. unfold u8.
  change 65536 with (256 * 256).
  rewrite N.Div0.mod_mul_r. reflexivity.
Qed.

Section EngineProperties.
Context {W : Type}.
Implicit Types (regs : list (RegisterRec W)) (r : RegisterRec W).
Implicit Types (w : World W) (a v x : N).

Lemma ReadRegisterIn_out_of_range regs a x w :
  registersSizeOf regs <= a → ReadRegisterIn regs a x w = (false, x).
Proof.
  intros Ha. unfold ReadRegisterIn.
  destruct (N.leb_spec (registersSizeOf regs) a); [reflexivity | lia].
Qed.

Lemma WriteRegisterIn_out_of_range regs a v w :
  registersSizeOf regs <= a → WriteRegisterIn regs a v w = (false, w).
Proof.
  intros Ha. unfold WriteRegisterIn.
  destruct (N.leb_spec (registersSizeOf regs) a); [reflexivity | lia].
Qed.

Lemma WriteRegisterIn_read_only regs a v r w :
  regs !! N.to_nat a = Some r → writable (flags r) = false →
  WriteRegisterIn regs a v w = (false, w).
Proof.
  intros Hr Hw. unfold WriteRegisterIn.
  destruct (registersSizeOf regs <=? a); [reflexivity|].
  rewrite Hr, Hw. reflexivity.
Qed.

(** The size field as the engine's [switch] sees it. *)
Lemma size_cases (s : N) : s = 0 ∨ s = 1 ∨ s = 2 ∨ 2 < s.
Proof. lia. Qed.

(** A write to a writable, address-backed register of a recognised width
    succeeds when the address is in range. *)
Lemma WriteRegisterIn_raw_succeeds regs a v r w :
  a < registersSizeOf regs → regs !! N.to_nat a = Some r →
  writable (flags r) = true → rwfuncs (flags r) = false →
  size (flags r) <= 2 →
  fst (WriteRegisterIn regs a v w) = true.
Proof.
  intros Ha Hr Hw Hf Hs. unfold WriteRegisterIn.
  destruct (N.leb_spec (registersSizeOf regs) a); [lia|].
  rewrite Hr, Hw, Hf. cbn [negb].
  destruct (size_cases (size (flags r))) as [->|[->|[->|?]]];
    try reflexivity; lia.
Qed.

(** Whenever a read of an address in range fails, [value] is 0 on
    return. *)
Lemma ReadRegisterIn_failure_in_range regs a x w :
  a < registersSizeOf regs → fst (ReadRegisterIn regs a x w) = false →
  snd (ReadRegisterIn regs a x w) = 0.
Proof.
  intros Ha. unfold ReadRegisterIn.
  destruct (N.leb_spec (registersSizeOf regs) a); [lia|].
  destruct (regs !! N.to_nat a) as [r|] eqn:Hr.
  - destruct (negb (rwfuncs (flags r)));
      destruct (size (flags r)) as [|[[q|q|]|[q|q|]|]]; cbn; congruence.
  - apply lookup_ge_None in Hr. unfold registersSizeOf, u8 in *.
    pose proof (N.Div0.mod_le (N.of_nat (length regs)) 256). lia.
Qed.

(** A read of an address in range succeeds when every size field of the
    table is one the engine recognises. *)
Lemma ReadRegisterIn_succeeds regs a x w :
  a < registersSizeOf regs → Forall (λ r, size (flags r) <= 2) regs →
  fst (ReadRegisterIn regs a x w) = true.
Proof.
  intros Ha Hall. unfold ReadRegisterIn.
  destruct (N.leb_spec (registersSizeOf regs) a); [lia|].
  destruct (regs !! N.to_nat a) as [r|] eqn:Hr.
  - pose proof (proj1 (Forall_lookup _ regs) Hall _ _ Hr) as Hs.
    cbn beta in Hs.
    destruct (negb (rwfuncs (flags r)));
      destruct (size_cases (size (flags r))) as [->|[->|[->|?]]];
      try reflexivity; lia.
  - apply lookup_ge_None in Hr. unfold registersSizeOf, u8 in *.
    pose proof (N.Div0.mod_le (N.of_nat (length regs)) 256). lia.
Qed.

(** C6.  For a writable register backed by an address, a write that
    succeeds followed by a read returns the written value reduced to the
    register's width: modulo 2^8 for one byte, modulo 2^16 for two. *)
Theorem raw_register_write_then_read regs a v x r w w' :
  regs !! N.to_nat a = Some r →
  writable (flags r) = true → rwfuncs (flags r) = false →
  WriteRegisterIn regs a v w = (true, w') →
  ReadRegisterIn regs a x w' = (true, v mod 2 ^ (8 * width r)).
Proof.
  intros Hr Hw Hf. unfold WriteRegisterIn, ReadRegisterIn, width.
  destruct (registersSizeOf regs <=? a); [discriminate|].
  rewrite Hr, Hw, Hf. cbn [negb].
  destruct (size_cases (size (flags r))) as [Hs|[Hs|[Hs|Hs]]].
  - rewrite Hs. intros [= <-]. cbn [ram]. rewrite load8_store8. reflexivity.
  - rewrite Hs. intros [= <-]. cbn [ram]. rewrite load8_store8. reflexivity.
  - rewrite Hs. intros [= <-]. cbn [ram]. rewrite load16_store16.
    reflexivity.
  - destruct (size (flags r)) as [|[[q|q|]|[q|q|]|]]; try discriminate; lia.
Qed.

(** C9.  [ReadRegister] sets [value] to 0 before it looks at the
    descriptor: at an address in range whose descriptor has a size field
    the engine does not recognise, it returns [false] with [value] equal
    to 0, whereas at an address out of range it returns [false] with
    [value] as the caller left it. *)
Theorem ReadRegister_zeroes_value_before_dispatch regs a b x r w :
  a < registersSizeOf regs → regs !! N.to_nat a = Some r →
  2 < size (flags r) →
  registersSizeOf regs <= b →
  ReadRegisterIn regs a x w = (false, 0)
  ∧ ReadRegisterIn regs b x w = (false, x).
Proof.
  intros Ha Hr Hs Hb. split.
  - unfold ReadRegisterIn.
    destruct (N.leb_spec (registersSizeOf regs) a); [lia|].
    rewrite Hr.
    destruct (negb (rwfuncs (flags r)));
      destruct (size (flags r)) as [|[[q|q|]|[q|q|]|]];
      try reflexivity; lia.
  - apply ReadRegisterIn_out_of_range. exact Hb.
Qed.

End EngineProperties.

Section TableProperties.
Context {W : Type} {M : Modules W}.
Implicit Types (w : World W) (a v x : N).

(** The table has 0x1D entries. *)
Lemma registersSize_eq : registersSize = 0x1D.
Proof. reflexivity. Qed.

(** The writable flag of each entry, addresses 0x00 to 0x1C in order:
    writable are 0x07, 0x09, 0x0B to 0x0D, 0x11 to 0x14, 0x1B and 0x1C. *)
Lemma registers_writable :
  map (λ r, writable (flags r)) registers
  = [false; false; false; false; false; false; false; true;
     false; true; false; true; true; true; false; false;
     false; true; true; true; true; false; false; false;
     false; false; false; true; true].
Proof. reflexivity. Qed.

(** Only the four version registers are backed by an address, and none of
    them is writable. *)
Lemma registers_rwfuncs :
  map (λ r, rwfuncs (flags r)) registers
  = [false; false; false; false] ++ replicate 25 true.
Proof. reflexivity. Qed.

(** The size field of each entry, in order; the engine recognises every
    one of them, so no read of an address in range fails. *)
Lemma registers_size :
  map (λ r, size (flags r)) registers
  = [1; 1; 1; 1; 2; 1; 2; 1; 1; 1; 1; 1; 1; 2; 2; 2;
     2; 2; 2; 2; 2; 2; 2; 2; 2; 2; 2; 1; 1].
Proof. reflexivity. Qed.

Lemma registers_recognised :
  Forall (λ r, size (flags r) <= 2) registers.
Proof.
  unfold registers.
  repeat (apply Forall_cons_2; [cbv; discriminate|]). apply Forall_nil_2.
Qed.

Lemma ReadRegister_in_range_succeeds a x w :
  a < 0x1D → fst (ReadRegister a x w) = true.
Proof.
  intros Ha. apply ReadRegisterIn_succeeds.
  - exact Ha.
  - exact registers_recognised.
Qed.

(** C1.  The table has 0x1D entries; at every address from 0x1D up,
    [ReadRegister] returns [false] and leaves [value] as it was, and
    [WriteRegister] returns [false] and leaves the world as it was,
    whatever the world and the value. *)
Theorem access_out_of_range_fails a v x w :
  0x1D <= a →
  registersSize = 0x1D
  ∧ ReadRegister a x w = (false, x)
  ∧ WriteRegister a v w = (false, w).
Proof.
  intros Ha. split; [reflexivity|]. split.
  - apply ReadRegisterIn_out_of_range. exact Ha.
  - apply WriteRegisterIn_out_of_range. exact Ha.
Qed.

(** C3.  At an address whose descriptor is not writable, [WriteRegister]
    returns [false] for every value and leaves the world as it was, so a
    read of that address afterwards returns what a read before it
    returned. *)
Theorem write_to_read_only_register_fails a v x (r : RegisterRec W) w :
  registers !! N.to_nat a = Some r → writable (flags r) = false →
  WriteRegister a v w = (false, w)
  ∧ ReadRegister a x (snd (WriteRegister a v w)) = ReadRegister a x w.
Proof.
  intros Hr Hw. unfold WriteRegister.
  rewrite (WriteRegisterIn_read_only registers a v r w Hr Hw).
  split; reflexivity.
Qed.

(** C4.  A write to address 0x1C of a value at or above the tool count
    disengages the idler, and of a value below it engages the idler at
    that slot.  After a write of the tool count itself, the next read of
    0x1C returns what the disengaged idler reports as its slot; that value
    is not below the tool count, so not a slot number, given that an idler
    told to disengage reports such a value. *)
Theorem idler_slot_register v x w :
  (config_toolCount <= v →
   WriteRegister 0x1C v w = (true, on_mods idler_Disengage w))
  ∧ (v < config_toolCount →
     WriteRegister 0x1C v w = (true, on_mods (idler_Engage v) w))
  ∧ ReadRegister 0x1C x (snd (WriteRegister 0x1C config_toolCount w))
    = (true, u16 (idler_Slot (idler_Disengage (mods w))))
  ∧ (IdlerReportsDisengaged →
     ∃ s, ReadRegister 0x1C x (snd (WriteRegister 0x1C config_toolCount w))
          = (true, s)
          ∧ config_toolCount <= s).
Proof.
  assert (Hwr : ∀ u, WriteRegister 0x1C u w
    = (true, on_mods (if config_toolCount <=? u then idler_Disengage
                      else idler_Engage u) w)) by reflexivity.
  assert (Hrd : ReadRegister 0x1C x
                  (snd (WriteRegister 0x1C config_toolCount w))
                = (true, u16 (idler_Slot (idler_Disengage (mods w))))).
  { rewrite Hwr, N.leb_refl. reflexivity. }
  split; [|split; [|split]].
  - intros Hv. rewrite Hwr.
    destruct (N.leb_spec config_toolCount v); [reflexivity | lia].
  - intros Hv. rewrite Hwr.
    destruct (N.leb_spec config_toolCount v); [lia | reflexivity].
  - exact Hrd.
  - intros Hc. eexists. split; [exact Hrd | apply Hc].
Qed.

End TableProperties.

(* ===================================================================== *)
(** * The properties at concrete inputs *)

Section Concrete.
Import logic.

Lemma Bench_rest_ready : BothReady Bench.rest.
Proof. split; reflexivity. Qed.

Lemma Bench_moving_not_ready : ¬ BothReady Bench.moving.
Proof. intros [Hi _]. discriminate Hi. Qed.

(** The version registers read back the bytes in RAM, a function-backed
    register what its module reports. *)
Example read_version :
  map (λ a, ReadRegister a 0xFFFF Bench.world0) [0; 1; 2; 3; 0x1C]
  = [(true, 2); (true, 1); (true, 9); (true, 4); (true, 2)].
Proof. vm_compute. reflexivity. Qed.

(** An 8-bit register in RAM keeps the low byte of what is written. *)
Example write_read_one_byte :
  ReadRegisterIn Bench.table 1 0
    (snd (WriteRegisterIn Bench.table 1 0x1234 Bench.world0))
  = (true, 0x34).
Proof. vm_compute. reflexivity. Qed.

(** Engaging slot 3 through register 0x1C, then reading it back. *)
Example engage_slot_3 :
  ReadRegister 0x1C 0 (snd (WriteRegister 0x1C 3 Bench.world0)) = (true, 3).
Proof. vm_compute. reflexivity. Qed.

(** C1 at the first address past the table. *)
Lemma access_out_of_range_fails_at_0x1D :
  registersSize (M := Bench.modules) = 0x1D
  ∧ ReadRegister 0x1D 0xBEEF Bench.world0 = (false, 0xBEEF)
  ∧ WriteRegister 0x1D 0xBEEF Bench.world0 = (false, Bench.world0).
Proof.
  apply (access_out_of_range_fails 0x1D 0xBEEF 0xBEEF Bench.world0). lia.
Defined.

(** C3 at the major-version register. *)
Lemma write_to_read_only_register_fails_at_0 :
  WriteRegister 0 0xAB Bench.world0 = (false, Bench.world0)
  ∧ ReadRegister 0 0 (snd (WriteRegister 0 0xAB Bench.world0))
    = ReadRegister 0 0 Bench.world0.
Proof.
  eapply (write_to_read_only_register_fails 0 0xAB 0 _ Bench.world0);
    reflexivity.
Defined.

(** C4 on the bench idler, whose disengaged position is index 5. *)
Lemma idler_slot_register_on_bench :
  ∃ s, ReadRegister 0x1C 0 (snd (WriteRegister 0x1C 5 Bench.world0))
       = (true, s)
       ∧ 5 <= s.
Proof.
  destruct (idler_slot_register 5 0 Bench.world0) as (_ & _ & _ & Hread).
  apply Hread. intros m. vm_compute. discriminate.
Defined.

(** C6 at the 16-bit register of the bench table. *)
Lemma raw_register_write_then_read_16_bit :
  ReadRegisterIn Bench.table 0 0
    (snd (WriteRegisterIn Bench.table 0 0xABCD Bench.world0))
  = (true, 0xABCD).
Proof.
  apply (raw_register_write_then_read Bench.table 0 0xABCD 0
           (RegisterRec_ptr true 2 0x200) Bench.world0
           (snd (WriteRegisterIn Bench.table 0 0xABCD Bench.world0)));
    reflexivity.
Defined.

(** C9 on the bench table: address 2 has size field 3, address 3 is past
    the table. *)
Lemma ReadRegister_zeroes_value_on_bench :
  ReadRegisterIn Bench.table 2 0xBEEF Bench.world0 = (false, 0)
  ∧ ReadRegisterIn Bench.table 3 0xBEEF Bench.world0 = (false, 0xBEEF).
Proof.
  eapply (ReadRegister_zeroes_value_before_dispatch Bench.table 2 3 0xBEEF _
            Bench.world0); [reflexivity | reflexivity | reflexivity | ].
  vm_compute. discriminate.
Defined.

(** C8 at a phase of another command. *)
Lemma Home_Step_unhandled_state_at_other :
  StepInner (mkHome (ProgressCode.Other 3) ErrorCode.RUNNING) Bench.rest
  = (true, failed).
Proof.
  apply (Home_Step_unhandled_state
           (mkHome (ProgressCode.Other 3) ErrorCode.RUNNING) Bench.rest);
    discriminate.
Defined.

(** C5: two steps with the idler moving, one with both axes at rest, one
    more with the idler moving again. *)
Lemma Home_waits_then_finishes_on_bench :
  StepTrace [Bench.moving; Bench.moving] (fst (Reset 0 failed Bench.rest))
  = [(false, homing); (false, homing)]
  ∧ map snd (StepTrace [Bench.moving; Bench.moving; Bench.rest; Bench.moving]
               (fst (Reset 0 failed Bench.rest)))
    = [homing; homing; finished; finished].
Proof.
  apply (Home_waits_then_finishes 0 failed Bench.rest
           [Bench.moving; Bench.moving] [Bench.moving] Bench.rest).
  - repeat constructor; exact Bench_moving_not_ready.
  - exact Bench_rest_ready.
Defined.

(** C2, amended, on the bench: reset with both axes at rest, then step. *)
Lemma Home_Step_reports_on_next_call_on_bench :
  StepInner (fst (Reset 0 failed Bench.rest)) (snd (Reset 0 failed Bench.rest))
  = (false, finished)
  ∧ StepInner finished Bench.rest = (true, finished)
  ∧ (fst (StepInner homing Bench.moving) = true
     ↔ state homing ≠ ProgressCode.Homing)
  ∧ (fst (StepInner homing Bench.moving) = true →
     state (snd (StepInner homing Bench.moving)) = ProgressCode.OK
     ∨ state (snd (StepInner homing Bench.moving)) = ProgressCode.ERRInternal).
Proof.
  apply (Home_Step_reports_on_next_call 0 failed homing Bench.rest
           (snd (Reset 0 failed Bench.rest)) Bench.rest Bench.moving).
  split; reflexivity.
Defined.

(** C2 as stated fails: with both axes ready when [Reset] is called and
    still ready afterwards, the very next step leaves [state = OK] and
    [error = OK] but returns [false]. *)
Lemma Home_first_Step_after_Reset_returns_false :
  BothReady Bench.rest
  ∧ BothReady (snd (Reset 0 failed Bench.rest))
  ∧ StepInner (fst (Reset 0 failed Bench.rest))
      (snd (Reset 0 failed Bench.rest))
    = (false, finished).
Proof. repeat split. Qed.

End Concrete.

(* ===================================================================== *)
(** * Further properties of the Home command *)

Section HomeRuns.
Import logic.
Context {W : Type} {M : Modules W}.

Lemma BothReady_dec (w : W) : BothReady w ∨ ¬ BothReady w.
Proof.
  unfold BothReady.
  destruct (idler_State w) as [|c], (selector_State w) as [|d];
    first [ left; split; reflexivity
          | right; intros [Hi Hs]; discriminate ].
Qed.

(** X1.  Once a step has returned [true], every later step returns [true]
    again and leaves the command object as that step left it, whatever
    the axes report. *)
Theorem Home_done_is_absorbing (h : Home) (w w' : W) :
  fst (StepInner h w) = true →
  StepInner (snd (StepInner h w)) w' = (true, snd (StepInner h w)).
Proof.
  unfold StepInner. destruct h as [s e]. cbn [state].
  destruct s; cbn [fst snd state]; try discriminate; reflexivity.
Qed.

(** X2.  From any state and error, if the first of two steps finds both
    axes ready, the second returns [true]. *)
Theorem Home_two_steps_suffice (h : Home) (w1 w2 : W) :
  BothReady w1 →
  fst (StepInner (snd (StepInner h w1)) w2) = true.
Proof.
  intros Hr. unfold StepInner at 2. destruct h as [s e]. cbn [state].
  destruct s; try reflexivity.
  rewrite (BothReady_test w1 Hr). reflexivity.
Qed.

Lemma never_failed_call (c : Call) (hw : Home * W) :
  fst hw = homing ∨ fst hw = finished →
  fst (call c hw) = homing ∨ fst (call c hw) = finished.
Proof.
  destruct hw as [h w]. cbn [fst]. destruct c as [p| |f]; cbn [call fst snd].
  - left. reflexivity.
  - intros [->| ->].
    + destruct (BothReady_dec w) as [Hr|Hn].
      * rewrite (StepInner_homing_done w Hr). right. reflexivity.
      * rewrite (StepInner_homing_wait w Hn). left. reflexivity.
    + right. reflexivity.
  - trivial.
Qed.

(** X3.  In a run that starts with [Reset], the command object is always
    either (Homing, RUNNING) or (OK, OK): the internal-error state is never
    entered. *)
Theorem Home_never_fails_after_Reset (p : N) (cs : list Call) (h : Home)
  (w : W) :
  fst (run (CallReset p :: cs) (h, w)) = homing
  ∨ fst (run (CallReset p :: cs) (h, w)) = finished.
Proof.
  change (run (CallReset p :: cs) (h, w)) with (run cs (Reset p h w)).
  assert (Hstart : fst (Reset p h w) = homing ∨ fst (Reset p h w) = finished)
    by (left; reflexivity).
  revert Hstart. generalize (Reset p h w). clear h w.
  induction cs as [|c cs IH]; intros hw Hinv.
  - exact Hinv.
  - cbn [run foldl]. apply IH. apply never_failed_call. exact Hinv.
Qed.

Lemma StepTrace_finished_lookup (ws : list W) (i : nat) (b : bool)
  (h : Home) :
  StepTrace ws finished !! i = Some (b, h) → b = true ∧ h = finished.
Proof.
  rewrite StepTrace_finished, list_lookup_fmap.
  destruct (ws !! i); cbn; [intros [= <- <-]; auto | discriminate].
Qed.

(** X4.  In a run of steps from the state [Reset] leaves, the i-th step
    returns [true] exactly when some earlier step found both axes ready,
    and leaves [state = OK] exactly when it or some earlier step did. *)
Theorem Home_step_flag_follows_readiness (ws : list W) (i : nat) (b : bool)
  (h : Home) :
  StepTrace ws homing !! i = Some (b, h) →
  (b = true ↔ Exists BothReady (take i ws))
  ∧ (h = finished ↔ Exists BothReady (take (S i) ws))
  ∧ (h = homing ∨ h = finished).
Proof.
  revert i. induction ws as [|w ws IH]; intros i; [discriminate|].
  cbn [StepTrace]. destruct (BothReady_dec w) as [Hr|Hn].
  - rewrite (StepInner_homing_done w Hr). cbn [snd].
    destruct i as [|i]; cbn [lookup list_lookup take].
    + intros [= <- <-]. split; [|split].
      * split; [discriminate | intros HE; inversion HE].
      * split; [intros _; left; exact Hr | reflexivity].
      * right. reflexivity.
    + intros Hi. apply StepTrace_finished_lookup in Hi as [-> ->].
      split; [|split].
      * split; [intros _; left; exact Hr | reflexivity].
      * split; [intros _; left; exact Hr | reflexivity].
      * right. reflexivity.
  - rewrite (StepInner_homing_wait w Hn). cbn [snd].
    destruct i as [|i]; cbn [lookup list_lookup take].
    + intros [= <- <-]. split; [|split].
      * split; [discriminate | intros HE; inversion HE].
      * split; [discriminate|].
        intros HE. inversion HE as [? ? Hw|? ? Hw]; subst.
        -- contradiction.
        -- inversion Hw.
      * left. reflexivity.
    + intros Hi. destruct (IH i Hi) as (Hb & Hh & Hc).
      split; [|split].
      * rewrite Hb. rewrite Exists_cons. tauto.
      * rewrite Hh. rewrite Exists_cons. tauto.
      * exact Hc.
Qed.

End HomeRuns.

(* ===================================================================== *)
(** * Further properties of the register access engine *)



Lemma store8_store8 (ram : gmap N N) (p v1 v2 : N) :
  store8 (store8 ram p v1) p v2 = store8 ram p v2.
Proof. unfold store8. apply insert_insert_eq. Qed.

Lemma store16_store16 (ram : gmap N N) (p v1 v2 : N) :
  store16 (store16 ram p v1) p v2 = store16 ram p v2.
Proof.
  unfold store16.
  rewrite (insert_insert_ne _ p (p + 1)) by lia.
  rewrite !insert_insert_eq. reflexivity.
Qed.

Section EngineFrame.
Context {W : Type}.
Implicit Types (regs : list (RegisterRec W)) (r : RegisterRec W).
Implicit Types (w : World W) (a v x : N).

Lemma lookup_in_range regs a :
  a < registersSizeOf regs → is_Some (regs !! N.to_nat a).
Proof.
  intros Ha. apply lookup_lt_is_Some. unfold registersSizeOf, u8 in Ha.
  pose proof (N.Div0.mod_le (N.of_nat (length regs)) 256). lia.
Qed.

(** X5.  Whenever [WriteRegister] returns [false], whatever the reason,
    it has changed nothing. *)
Theorem WriteRegister_failure_changes_nothing regs a v w :
  fst (WriteRegisterIn regs a v w) = false →
  snd (WriteRegisterIn regs a v w) = w.
Proof.
  unfold WriteRegisterIn.
  destruct (registersSizeOf regs <=? a); [reflexivity|].
  destruct (regs !! N.to_nat a) as [r|]; [|reflexivity].
  destruct (negb (writable (flags r))); [reflexivity|].
  destruct (negb (rwfuncs (flags r)));
    destruct (size (flags r)) as [|[[q|q|]|[q|q|]|]]; cbn [fst snd];
    first [reflexivity | discriminate].
Qed.

(** X6.  At an address in range, what [ReadRegister] returns does not
    depend on what the caller's variable held. *)
Theorem ReadRegister_ignores_old_value regs a x y w :
  a < registersSizeOf regs →
  ReadRegisterIn regs a x w = ReadRegisterIn regs a y w.
Proof.
  intros Ha. unfold ReadRegisterIn.
  destruct (N.leb_spec (registersSizeOf regs) a); [lia|].
  destruct (lookup_in_range regs a Ha) as [r ->]. reflexivity.
Qed.




(** X8.  For a register backed by an address, the last of two writes
    wins: writing twice leaves the same world as the second write
    alone. *)
Theorem raw_write_last_wins regs a v1 v2 r w :
  regs !! N.to_nat a = Some r → rwfuncs (flags r) = false →
  WriteRegisterIn regs a v2 (snd (WriteRegisterIn regs a v1 w))
  = WriteRegisterIn regs a v2 w.
Proof.
  intros Hr Hf. unfold WriteRegisterIn.
  destruct (registersSizeOf regs <=? a); [reflexivity|].
  rewrite Hr, Hf. destruct (negb (writable (flags r))); [reflexivity|].
  cbn [negb].
  destruct (size (flags r)) as [|[[q|q|]|[q|q|]|]]; cbn [snd ram mods];
    rewrite ?store8_store8, ?store16_store16; reflexivity.
Qed.

End EngineFrame.

Section Constructors.
Context {W : Type}.
Implicit Types (regs : list (RegisterRec W)) (w : World W) (a v x : N).

Lemma mod4_cases (n : N) :
  n mod 4 = 0 ∨ n mod 4 = 1 ∨ n mod 4 = 2 ∨ n mod 4 = 3.
Proof.
  assert (Hlt : n mod 4 < 4) by (apply N.mod_upper_bound; discriminate).
  revert Hlt. generalize (n mod 4). intros m Hm. lia.
Qed.

(** X9.  The size field keeps two bits of [sizeof(T)].  A register made
    by the pointer constructor is accessed as two bytes when [sizeof(T)]
    is 2 modulo 4, fails on every access when it is 3 modulo 4, and is
    accessed as one byte otherwise, so a 4-byte object is read and written
    through its first byte only. *)
Theorem pointer_register_width_wraps regs a v x wr sz p w :
  a < registersSizeOf regs →
  regs !! N.to_nat a = Some (RegisterRec_ptr wr sz p) →
  ReadRegisterIn regs a x w
  = (if sz mod 4 =? 3 then (false, 0)
     else if sz mod 4 =? 2 then (true, load16 (ram w) p)
     else (true, load8 (ram w) p))
  ∧ WriteRegisterIn regs a v w
    = (if negb wr || (sz mod 4 =? 3) then (false, w)
       else if sz mod 4 =? 2 then (true, mkWorld (store16 (ram w) p v) (mods w))
       else (true, mkWorld (store8 (ram w) p v) (mods w))).
Proof.
  intros Ha Hr. unfold ReadRegisterIn, WriteRegisterIn.
  destruct (N.leb_spec (registersSizeOf regs) a); [lia|].
  rewrite Hr. cbn [RegisterRec_ptr RegisterFlags_2 flags A1 rwfuncs writable
                   size addr negb].
  destruct (mod4_cases sz) as [-> | [-> | [-> | ->]]]; destruct wr; split;
    reflexivity.
Qed.

(** X10.  For a register made by the read-and-write function constructor
    the width argument neither truncates what is read nor what is written:
    unless it is 3 modulo 4, a read returns what the read function returns
    and a write hands the whole value to the write function. *)
Theorem function_register_ignores_width regs a v x rf wf bytes w :
  a < registersSizeOf regs →
  regs !! N.to_nat a = Some (RegisterRec_rw rf wf bytes) →
  bytes mod 4 ≠ 3 →
  ReadRegisterIn regs a x w = (true, rf w)
  ∧ WriteRegisterIn regs a v w = (true, wf v w).
Proof.
  intros Ha Hr Hb. unfold ReadRegisterIn, WriteRegisterIn.
  destruct (N.leb_spec (registersSizeOf regs) a); [lia|].
  rewrite Hr. cbn [RegisterRec_rw RegisterFlags_3 flags A1 A2 rwfuncs
                   writable size readFunc writeFunc negb].
  destruct (mod4_cases bytes) as [->|[->|[->|?]]]; [split; reflexivity ..|].
  contradiction.
Qed.

(** X11.  A default-constructed entry reads as 0 and cannot be written,
    the byte at [dummyZero] being 0. *)
Theorem placeholder_register_reads_zero `{!Modules W} regs a v x w :
  a < registersSizeOf regs →
  regs !! N.to_nat a = Some RegisterRec_0 →
  load8 (ram w) dummyZero_addr = 0 →
  ReadRegisterIn regs a x w = (true, 0)
  ∧ WriteRegisterIn regs a v w = (false, w).
Proof.
  intros Ha Hr Hz. unfold ReadRegisterIn, WriteRegisterIn.
  destruct (N.leb_spec (registersSizeOf regs) a); [lia|].
  rewrite Hr. cbn. rewrite Hz. split; reflexivity.
Qed.

Lemma membersInitialised_spec (r : RegisterRec W) :
  membersInitialised r = true →
  if rwfuncs (flags r)
  then (∃ f, A1 r = U1_readFunc f)
       ∧ (writable (flags r) = true → ∃ g, A2 r = U2_writeFunc g)
  else ∃ p, A1 r = U1_addr p.
Proof.
  unfold membersInitialised.
  destruct (A1 r) as [p|f], (rwfuncs (flags r)); cbn; try discriminate.
  - intros _. eauto.
  - destruct (writable (flags r)); cbn.
    + destruct (A2 r) as [q|g]; [discriminate|]. intros _. split; eauto.
    + intros _. split; [eauto | discriminate].
Qed.

End Constructors.

(* ===================================================================== *)
(** * Further properties of the firmware's register table *)

Section TableFacts.
Context {W : Type} {M : Modules W}.
Implicit Types (w : World W) (a v x : N).

(** To show a property of every address of the table, show it of each of
    the 29 addresses. *)
Lemma address_cases (P : N → Prop) :
  Forall (λ n, P (N.of_nat n)) (seq 0 29) → ∀ a, a < 0x1D → P a.
Proof.
  intros HP a Ha. rewrite Forall_forall in HP.
  specialize (HP (N.to_nat a)). rewrite N2Nat.id in HP.
  apply HP. apply elem_of_seq. lia.
Qed.

Ltac each_address a Ha :=
  revert a Ha; apply address_cases; cbn [seq];
  repeat (apply Forall_cons_2;
          [cbv [N.of_nat Pos.of_succ_nat Pos.succ]|]);
  [..|apply Forall_nil_2].

(** X12.  [ReadRegister] succeeds exactly at the addresses of the table,
    0x00 to 0x1C: no entry of the table makes a read fail. *)
Theorem ReadRegister_succeeds_iff_in_range a x w :
  fst (ReadRegister a x w) = true ↔ a < 0x1D.
Proof.
  split.
  - intros Hok. destruct (N.lt_ge_cases a 0x1D) as [Hlt|Hge]; [exact Hlt|].
    unfold ReadRegister in Hok.
    rewrite (ReadRegisterIn_out_of_range registers a x w Hge) in Hok.
    discriminate.
  - apply ReadRegister_in_range_succeeds.
Qed.

(** X13.  [WriteRegister] succeeds exactly at addresses 0x07, 0x09, 0x0B
    to 0x0D, 0x11 to 0x14, 0x1B and 0x1C, whatever the value and the
    world. *)
Theorem WriteRegister_succeeds_iff_writable a v w :
  fst (WriteRegister a v w) = true
  ↔ a = 0x07 ∨ a = 0x09 ∨ 0x0B <= a <= 0x0D ∨ 0x11 <= a <= 0x14
    ∨ a = 0x1B ∨ a = 0x1C.
Proof.
  destruct (N.lt_ge_cases a 0x1D) as [Hlt|Hge].
  - each_address a Hlt;
      (split; [intros Hok; first [discriminate Hok | lia]
              | intros Hin; first [reflexivity | lia]]).
  - unfold WriteRegister.
    rewrite (WriteRegisterIn_out_of_range registers a v w Hge).
    split; [discriminate | lia].
Qed.

Lemma WriteRegister_keeps_ram a v w :
  ram (snd (WriteRegister a v w)) = ram w.
Proof.
  destruct (N.lt_ge_cases a 0x1D) as [Hlt|Hge].
  - each_address a Hlt; reflexivity.
  - unfold WriteRegister.
    rewrite (WriteRegisterIn_out_of_range registers a v w Hge). reflexivity.
Qed.

Lemma version_register_reads_ram a x w1 w2 :
  a < 4 → ram w1 = ram w2 → ReadRegister a x w1 = ReadRegister a x w2.
Proof.
  intros Ha Hram.
  assert (Hc : a = 0 ∨ a = 1 ∨ a = 2 ∨ a = 3) by lia.
  destruct Hc as [->|[->|[->| ->]]];
    cbv [ReadRegister ReadRegisterIn]; cbn; rewrite Hram; reflexivity.
Qed.

(** X14.  No sequence of [WriteRegister] calls changes RAM, so the four
    version registers read the same after it as before. *)
Theorem writes_never_change_RAM (ops : list (N * N)) w :
  ram (WriteRegisters ops w) = ram w
  ∧ ∀ a x, a < 4 →
      ReadRegister a x (WriteRegisters ops w) = ReadRegister a x w.
Proof.
  assert (Hram : ram (WriteRegisters ops w) = ram w).
  { revert w. induction ops as [|[a v] ops IH]; intros w; [reflexivity|].
    cbn [WriteRegisters foldl fst snd].
    change (ram (WriteRegisters ops (snd (WriteRegister a v w))) = ram w).
    rewrite IH. apply WriteRegister_keeps_ram. }
  split; [exact Hram|].
  intros a x Ha. apply version_register_reads_ram; assumption.
Qed.

(** X15.  The acceleration, homing-feedrate and stall-threshold
    registers, 0x0E to 0x10 and 0x15 to 0x19, return the same value in
    every world, and no write to them succeeds. *)
Theorem config_registers_are_constant a v x y w w' :
  0x0E <= a <= 0x10 ∨ 0x15 <= a <= 0x19 →
  ReadRegister a x w = ReadRegister a y w'
  ∧ WriteRegister a v w = (false, w).
Proof.
  intros Ha.
  assert (Hc : a = 0x0E ∨ a = 0x0F ∨ a = 0x10 ∨ a = 0x15 ∨ a = 0x16
               ∨ a = 0x17 ∨ a = 0x18 ∨ a = 0x19) by lia.
  destruct Hc as [->|[->|[->|[->|[->|[->|[->| ->]]]]]]];
    split; reflexivity.
Qed.

(** X16.  A write to the filament-sensor register, 0x09, looks only at
    whether the value is zero: every non-zero value does what 1 does. *)
Theorem fsensor_write_tests_for_zero v w :
  v ≠ 0 → WriteRegister 0x09 v w = WriteRegister 0x09 1 w.
Proof.
  intros Hv.
  assert (Hwr : ∀ u, WriteRegister 0x09 u w
    = (true, on_mods (fsensor_ProcessMessage (negb (u =? 0))) w))
    by reflexivity.
  rewrite !Hwr. destruct (N.eqb_spec v 0) as [->|_];
    [contradiction | reflexivity].
Qed.

(** X17.  For every entry of the table, the union members the engine
    accesses under its flag tests are the ones the constructor
    initialised: an address when [rwfuncs] is clear, a read function when
    it is set, and a write function too when the entry is writable. *)
Theorem table_members_initialised (r : RegisterRec W) :
  r ∈ registers →
  if rwfuncs (flags r)
  then (∃ f, A1 r = U1_readFunc f)
       ∧ (writable (flags r) = true → ∃ g, A2 r = U2_writeFunc g)
  else ∃ p, A1 r = U1_addr p.
Proof.
  intros Hin. apply membersInitialised_spec.
  assert (Hall : forallb membersInitialised registers = true)
    by reflexivity.
  rewrite forallb_forall in Hall. apply Hall.
  apply list_elem_of_In. exact Hin.
Qed.

End TableFacts.

(* ===================================================================== *)
(** * The further properties at concrete inputs *)

Section ConcreteRuns.
Import logic.

(** X1 at a phase of another command. *)
Lemma Home_done_is_absorbing_at_other :
  StepInner
    (snd (StepInner (mkHome (ProgressCode.Other 3) ErrorCode.RUNNING)
            Bench.rest))
    Bench.moving
  = (true, failed).
Proof.
  exact (Home_done_is_absorbing
           (mkHome (ProgressCode.Other 3) ErrorCode.RUNNING)
           Bench.rest Bench.moving eq_refl).
Defined.

(** X2 from a homing command, the idler moving again at the second
    step. *)
Lemma Home_two_steps_suffice_on_bench :
  fst (StepInner (snd (StepInner homing Bench.rest)) Bench.moving) = true.
Proof.
  apply (Home_two_steps_suffice homing Bench.rest Bench.moving).
  split; reflexivity.
Defined.

(** X4 at the third of three steps, the axes ready at the second. *)
Lemma Home_step_flag_follows_readiness_on_bench :
  (true = true
   ↔ Exists BothReady (take 2 [Bench.moving; Bench.rest; Bench.moving]))
  ∧ (finished = finished
     ↔ Exists BothReady (take 3 [Bench.moving; Bench.rest; Bench.moving]))
  ∧ (finished = homing ∨ finished = finished).
Proof.
  apply (Home_step_flag_follows_readiness
           [Bench.moving; Bench.rest; Bench.moving] 2 true finished).
  reflexivity.
Defined.

(** X5 at the entry of the bench table whose width argument is 3. *)
Lemma WriteRegister_failure_changes_nothing_on_bench :
  snd (WriteRegisterIn Bench.table 2 1 Bench.world0) = Bench.world0.
Proof.
  apply (WriteRegister_failure_changes_nothing Bench.table 2 1 Bench.world0).
  reflexivity.
Defined.

(** X6 at the 16-bit register of the bench table. *)
Lemma ReadRegister_ignores_old_value_on_bench :
  ReadRegisterIn Bench.table 0 1 Bench.world0
  = ReadRegisterIn Bench.table 0 2 Bench.world0.
Proof.
  apply (ReadRegister_ignores_old_value Bench.table 0 1 2 Bench.world0).
  reflexivity.
Defined.


(** X8 at the 16-bit register of the bench table. *)
Lemma raw_write_last_wins_on_bench :
  WriteRegisterIn Bench.table 0 2
    (snd (WriteRegisterIn Bench.table 0 1 Bench.world0))
  = WriteRegisterIn Bench.table 0 2 Bench.world0.
Proof.
  apply (raw_write_last_wins Bench.table 0 1 2
           (RegisterRec_ptr true 2 0x200) Bench.world0); reflexivity.
Defined.

(** X9: a 4-byte object holding 0x04030201 reads as 1. *)
Lemma pointer_register_width_wraps_at_4 :
  ReadRegisterIn BenchTables.wide 0 0 BenchTables.world1
  = (true, load8 BenchTables.ram1 0x210)
  ∧ WriteRegisterIn BenchTables.wide 0 0xFFFF BenchTables.world1
    = (true, mkWorld (store8 BenchTables.ram1 0x210 0xFFFF) Bench.rest).
Proof.
  exact (pointer_register_width_wraps BenchTables.wide 0 0xFFFF 0 true 4
           0x210 BenchTables.world1 eq_refl eq_refl).
Defined.

(** X10: a one-byte register over a setting takes a 16-bit value whole. *)
Lemma function_register_ignores_width_on_bench :
  ReadRegisterIn BenchTables.placeholder 1 0 Bench.world0
  = (true, u16 (Bench.feedrate (mods Bench.world0)))
  ∧ WriteRegisterIn BenchTables.placeholder 1 0x1234 Bench.world0
    = (true, on_mods (Bench.setFeedrate 0x1234) Bench.world0).
Proof.
  apply (function_register_ignores_width BenchTables.placeholder 1 0x1234 0
           (λ w, u16 (Bench.feedrate (mods w)))
           (λ v, on_mods (Bench.setFeedrate v)) 1 Bench.world0);
    [reflexivity | reflexivity | discriminate].
Defined.

(** X11 at the default-constructed entry of a bench table. *)
Lemma placeholder_register_reads_zero_on_bench :
  ReadRegisterIn BenchTables.placeholder 0 0xBEEF Bench.world0 = (true, 0)
  ∧ WriteRegisterIn BenchTables.placeholder 0 1 Bench.world0
    = (false, Bench.world0).
Proof.
  apply (placeholder_register_reads_zero BenchTables.placeholder 0 1 0xBEEF
           Bench.world0); reflexivity.
Defined.

(** X15 at the pulley acceleration register, in two different worlds. *)
Lemma config_registers_are_constant_at_0x0E :
  ReadRegister 0x0E 0 Bench.world0 = ReadRegister 0x0E 1 BenchTables.world1
  ∧ WriteRegister 0x0E 7 Bench.world0 = (false, Bench.world0).
Proof.
  apply (config_registers_are_constant 0x0E 7 0 1 Bench.world0
           BenchTables.world1).
  left. lia.
Defined.

(** X16 at the value 0x100, whose low byte is zero. *)
Lemma fsensor_write_tests_for_zero_at_0x100 :
  WriteRegister 0x09 0x100 Bench.world0 = WriteRegister 0x09 1 Bench.world0.
Proof.
  apply (fsensor_write_tests_for_zero 0x100 Bench.world0). discriminate.
Defined.

(** X17 at the major-version entry. *)
Lemma table_members_initialised_at_major :
  ∃ p, A1 (RegisterRec_ptr (W := Bench.t) false sizeof_project_version
             project_major_addr)
       = U1_addr p.
Proof.
  apply (table_members_initialised
           (RegisterRec_ptr (W := Bench.t) false sizeof_project_version
              project_major_addr)).
  unfold registers. left.
Defined.

End ConcreteRuns.
